(** * imagefinder: the Pexels search pipeline

    A shallow embedding of [imagefinderapp/models.py] and
    [imagefinderapp/views.py].  The Python code talks to the process
    environment, to the network (through [requests]) and to Django; those
    effects are made explicit as a state-and-exception monad over a
    [World] that carries the environment, the remote server, the database
    table of the model and a trace of everything the code did.

    [requests.get] comes in two layers.  [requests_get] is the call seen
    from the code: a request is handed over and a response, the last one
    should [requests] have followed redirects, comes back or does not.
    [checked.requests_get] puts in front of it the checks [requests] and
    [http.client] make on the headers before anything is sent; [search]
    over that client is [checked.search].  How [requests] re-quotes a URL
    and which further requests it sends for a redirect is not modelled:
    the properties about the URL are stated for queries it leaves alone,
    and about the first request of a call. *)

From Stdlib Require Import ZArith Ascii String List.
From stdpp Require Import base option list gmap strings.
Import ListNotations.
Local Open Scope string_scope.
Local Open Scope Z_scope.
Local Open Scope list_scope.

(** ** Python values decoded from JSON *)

(** What [response.json()] hands back: [None], booleans, numbers, [str],
    [list] and [dict].  A dict is kept as the members of the JSON object
    in document order; a repeated name is resolved by [dict_get] the way
    [json.loads] does (the last one wins).  Numbers are never computed
    with, so they keep their lexeme. *)
#[local] Set Warnings "-register-all".
Inductive json : Type :=
  | JNull
  | JBool (b : bool)
  | JNumber (lexeme : string)
  | JString (s : string)
  | JArray (items : list json)
  | JObject (members : list (string * json)).

(** The exceptions that can leave the two functions. *)
Inductive exn : Type :=
  | HTTPError (status : Z)
  | ConnectionError
  | InvalidHeader
  | ValueError
  | JSONDecodeError
  | KeyError (key : string)
  | TypeError
  | UnboundLocalError (name : string).

Inductive result (A : Type) : Type :=
  | Return (a : A)
  | Raise (e : exn).
Arguments Return {A} a.
Arguments Raise {A} e.

Definition result_bind {A B} (r : result A) (k : A → result B) : result B :=
  match r with
  | Return a => k a
  | Raise e => Raise e
  end.

(** [d[key]] on a dict built by [json.loads]: the last member of that name. *)
Fixpoint dict_get (key : string) (members : list (string * json)) : option json :=
  match members with
  | [] => None
  | (k, v) :: rest =>
      match dict_get key rest with
      | Some v' => Some v'
      | None => if String.eqb k key then Some v else None
      end
  end.

(** The keys of the dict in insertion order (a repeated name keeps the
    position of its first occurrence). *)
Fixpoint dict_keys (seen : list string) (members : list (string * json)) : list string :=
  match members with
  | [] => []
  | (k, _) :: rest =>
      if bool_decide (k ∈ seen) then dict_keys seen rest
      else k :: dict_keys (k :: seen) rest
  end.

(** The characters of a [str], each one a [str] of length one. *)
Fixpoint str_chars (s : string) : list json :=
  match s with
  | EmptyString => []
  | String c rest => JString (String c EmptyString) :: str_chars rest
  end.

(** [v[key]] with a [str] key: only a dict can be subscripted that way. *)
Definition getitem (v : json) (key : string) : result json :=
  match v with
  | JObject members =>
      match dict_get key members with
      | Some x => Return x
      | None => Raise (KeyError key)
      end
  | _ => Raise TypeError
  end.

(** [iter(v)], run to the end: what a [for] loop over [v] visits. *)
Definition py_iter (v : json) : result (list json) :=
  match v with
  | JArray items => Return items
  | JObject members => Return (JString <$> dict_keys [] members)
  | JString s => Return (str_chars s)
  | _ => Raise TypeError
  end.

(** A list comprehension whose element expression may raise: the first
    exception ends it and nothing of the list built so far survives. *)
Fixpoint comprehension {A B} (f : A → result B) (xs : list A) : result (list B) :=
  match xs with
  | [] => Return []
  | x :: rest =>
      result_bind (f x) (fun y =>
      result_bind (comprehension f rest) (fun ys =>
      Return (y :: ys)))
  end.

(** [f'{v}'] for a value that is a [str] or [None]. *)
Definition fstring (v : option string) : string :=
  match v with
  | Some s => s
  | None => "None"
  end.

(** ** HTTP *)

Record Request : Type := mkRequest {
  req_verb : string;
  req_url : string;
  req_headers : list (string * string)
}.

(** A response as [requests] returns it: the status code and what
    [response.json()] makes of the body ([None] when the body is not a
    JSON document). *)
Record Response : Type := mkResponse {
  status_code : Z;
  content : option json
}.

(** ** The model *)

Module PexelsImage.

(** An instance of the Django model.  [pk] is the primary key of the
    migration's [id] column; it is [None] until the instance is saved.
    The constructor stores whatever values it is given. *)
Record t : Type := mk {
  pk : option Z;
  url : json;
  previewURL : json;
  photographer : json
}.

(** [PexelsImage(url=..., previewURL=..., photographer=...)] *)
Definition new (url previewURL photographer : json) : t :=
  {| pk := None; url := url; previewURL := previewURL; photographer := photographer |}.

End PexelsImage.

(** ** The world and the effects *)

Inductive event : Type :=
  | EvEnvironGet (name : string)
  | EvHttp (r : Request)
  | EvJson
  | EvIsValid
  | EvSave.

Record World : Type := mkWorld {
  environ : gmap string string;
  (** what the remote end answers; [None] when no response arrives *)
  remote : Request → option Response;
  (** the rows of the table created by migration 0001 *)
  table : list PexelsImage.t;
  (** everything done so far, oldest first *)
  trace : list event
}.

Definition log (e : event) (w : World) : World :=
  {| environ := environ w; remote := remote w; table := table w;
     trace := trace w ++ [e] |}.

Definition M (A : Type) : Type := World → result A * World.

Definition ret {A} (a : A) : M A := fun w => (Return a, w).
Definition raise {A} (e : exn) : M A := fun w => (Raise e, w).
Definition bind {A B} (m : M A) (k : A → M B) : M B :=
  fun w =>
    match m w with
    | (Return a, w') => k a w'
    | (Raise e, w') => (Raise e, w')
    end.
Definition lift {A} (r : result A) : M A := fun w => (r, w).

#[global] Instance M_ret : MRet M := @ret.
#[global] Instance M_bind : MBind M := fun A B k m => bind m k.

(** [os.environ.get(name)] *)
Definition os_environ_get (name : string) : M (option string) :=
  fun w => (Return (environ w !! name), log (EvEnvironGet name) w).

(** [requests.get(url, headers=headers)], for a request that [requests]
    agrees to send: the request is logged and the remote end's answer
    comes back.  The checks that come before are in
    [checked.requests_get]. *)
Definition requests_get (url : string) (headers : list (string * string)) : M Response :=
  fun w =>
    let r := mkRequest "GET" url headers in
    match remote w r with
    | Some resp => (Return resp, log (EvHttp r) w)
    | None => (Raise ConnectionError, log (EvHttp r) w)
    end.

(** [response.raise_for_status()] of [requests]: an [HTTPError] for a
    client error (4xx) or a server error (5xx), nothing otherwise. *)
Definition raise_for_status (response : Response) : M unit :=
  if bool_decide (400 ≤ status_code response < 600)
  then raise (HTTPError (status_code response))
  else ret tt.

(** [response.json()] *)
Definition response_json (response : Response) : M json :=
  fun w =>
    match content response with
    | Some v => (Return v, log EvJson w)
    | None => (Raise JSONDecodeError, log EvJson w)
    end.

(** [instance.save()] of Django, for an instance without a primary key:
    one more row.  Nothing in the application calls it. *)
Definition Model_save (img : PexelsImage.t) : M unit :=
  fun w =>
    (Return tt,
     {| environ := environ w; remote := remote w;
        table := table w ++ [img]; trace := trace w ++ [EvSave] |}).

Module Import models.

Definition endpoint : string := "https://api.pexels.com/v1/search".

(** The element expression of the comprehension in [search]. *)
Definition image_of_photo (photo : json) : result PexelsImage.t :=
  result_bind (getitem photo "url") (fun url =>
  result_bind (getitem photo "src") (fun src =>
  result_bind (getitem src "tiny") (fun tiny =>
  result_bind (getitem photo "photographer") (fun photographer =>
  Return (PexelsImage.new url tiny photographer))))).

(** [PexelsImage.search(query)] *)
Definition search (query : string) : M (list PexelsImage.t) :=
  pexels_api_key ← os_environ_get "PEXELS_API_KEY";
  let headers := [("Authorization", fstring pexels_api_key)] in
  let url := endpoint +:+ "?query=" +:+ query in
  response ← requests_get url headers;
  raise_for_status response;;
  data ← response_json response;
  photos ← lift (getitem data "photos");
  items ← lift (py_iter photos);
  images ← lift (comprehension image_of_photo items);
  ret images.

End models.

(** ** The checks before a request is sent *)

Module checked.

(** Python's [\s] on a character of a [str], for the characters a
    [string] here can hold (code points below 256). *)
Definition is_space (c : ascii) : bool :=
  let n := nat_of_ascii c in
  ((9 <=? n) && (n <=? 13) || (28 <=? n) && (n <=? 32) ||
   (n =? 133) || (n =? 160))%nat.

Definition is_cr (c : ascii) : bool := Ascii.eqb c "013".
Definition is_lf (c : ascii) : bool := Ascii.eqb c "010".
Definition is_blank (c : ascii) : bool := Ascii.eqb c " " || Ascii.eqb c "009".

Definition is_empty (s : string) : bool :=
  match s with
  | EmptyString => true
  | String _ _ => false
  end.

(** [[^\r\n]*$] of [re]: no CR and no LF, but for one LF that ends the
    string ([$] also matches just before it). *)
Fixpoint no_line_break (s : string) : bool :=
  match s with
  | EmptyString => true
  | String c rest =>
      if is_lf c then is_empty rest
      else if is_cr c then false
      else no_line_break rest
  end.

(** The same with [:] excluded as well: [[^:\r\n]*$]. *)
Fixpoint no_colon_no_line_break (s : string) : bool :=
  match s with
  | EmptyString => true
  | String c rest =>
      if is_lf c then is_empty rest
      else if is_cr c || Ascii.eqb c ":" then false
      else no_colon_no_line_break rest
  end.

(** [requests]' check of a header name that is a [str]: [re.match] of
    [^[^:\s][^:\r\n]*$]. *)
Definition name_valid (name : string) : bool :=
  match name with
  | EmptyString => false
  | String c rest =>
      negb (Ascii.eqb c ":") && negb (is_space c) && no_colon_no_line_break rest
  end.

(** [requests]' check of a header value that is a [str]: [re.match] of
    [^\S[^\r\n]*$|^$]. *)
Definition value_valid (value : string) : bool :=
  match value with
  | EmptyString => true
  | String c rest =>
      if is_space c then is_lf c && is_empty rest
      else no_line_break rest
  end.

Definition starts_with (p : ascii → bool) (s : string) : bool :=
  match s with
  | EmptyString => false
  | String c _ => p c
  end.

(** What [http.client] calls an illegal header value: a LF not followed
    by a space or tab, or a CR not followed by a space, tab or LF
    ([re.search] of [\n(?![ \t])|\r(?![ \t\n])]). *)
Fixpoint value_illegal (value : string) : bool :=
  match value with
  | EmptyString => false
  | String c rest =>
      is_lf c && negb (starts_with is_blank rest) ||
      is_cr c && negb (starts_with (fun d => is_blank d || is_lf d) rest) ||
      value_illegal rest
  end.

(** What [http.client] calls a legal header name: [re.fullmatch] of
    [[^:\s][^:\r\n]*], on bytes, where [\s] is ASCII white space. *)
Fixpoint no_colon_no_cr_lf (s : string) : bool :=
  match s with
  | EmptyString => true
  | String c rest =>
      negb (is_lf c || is_cr c || Ascii.eqb c ":") && no_colon_no_cr_lf rest
  end.

Definition is_ascii_space (c : ascii) : bool :=
  let n := nat_of_ascii c in ((9 <=? n) && (n <=? 13) || (n =? 32))%nat.

Definition name_legal (name : string) : bool :=
  match name with
  | EmptyString => false
  | String c rest =>
      negb (Ascii.eqb c ":") && negb (is_ascii_space c) && no_colon_no_cr_lf rest
  end.

(** Whether [requests] refuses the headers: it checks every name and
    value while it prepares the request, before any use of the network. *)
Definition invalid (headers : list (string * string)) : bool :=
  negb (forallb (fun h => name_valid h.1 && value_valid h.2) headers).

(** Whether [http.client] refuses the headers: it checks every name and
    value again when it writes them to its buffer, which it does once
    the connection to the host stands and before the buffer is sent. *)
Definition illegal (headers : list (string * string)) : bool :=
  negb (forallb (fun h => name_legal h.1 && negb (value_illegal h.2)) headers).

(** [requests.get(url, headers=headers)] with the checks on the headers.
    Headers [requests] refuses are an [InvalidHeader].  Headers only
    [http.client] refuses are a [ValueError] when the host can be
    reached, and the [ConnectionError] of the failed connection when it
    cannot.  In all three cases nothing went out, and no event is
    left. *)
Definition requests_get (url : string) (headers : list (string * string)) : M Response :=
  fun w =>
    if invalid headers then (Raise InvalidHeader, w)
    else if illegal headers then
      match remote w (mkRequest "GET" url headers) with
      | Some _ => (Raise ValueError, w)
      | None => (Raise ConnectionError, w)
      end
    else requests_get url headers w.

(** [PexelsImage.search(query)] over that client. *)
Definition search (query : string) : M (list PexelsImage.t) :=
  pexels_api_key ← os_environ_get "PEXELS_API_KEY";
  let headers := [("Authorization", fstring pexels_api_key)] in
  let url := endpoint +:+ "?query=" +:+ query in
  response ← requests_get url headers;
  raise_for_status response;;
  data ← response_json response;
  photos ← lift (getitem data "photos");
  items ← lift (py_iter photos);
  images ← lift (comprehension image_of_photo items);
  ret images.

(** A header value that passes both checks. *)
Definition acceptable (value : string) : bool :=
  value_valid value && negb (value_illegal value).

End checked.

(** ** The form *)

Module forms.

(** Modelled from the spec: [forms.py] is not among the sources.  The spec
    gives the form "a single required text field `query`" and calls a
    submission invalid when that field is "missing/empty".  A form is
    unbound ([PexelsSearchForm()]) or bound to the submitted data
    ([PexelsSearchForm(request.POST)]). *)
Inductive PexelsSearchForm : Type :=
  | Unbound
  | Bound (data : gmap string string).

(** Modelled from the spec: the outcome of validation, "missing/empty
    query" being the one way to fail it. *)
Definition valid (form : PexelsSearchForm) : bool :=
  match form with
  | Unbound => false
  | Bound data =>
      match data !! "query" with
      | Some q => negb (String.eqb q "")
      | None => false
      end
  end.

(** Modelled from the spec: [form.cleaned_data] after validation, holding
    the field when it passed. *)
Definition cleaned_data (form : PexelsSearchForm) : gmap string string :=
  match form with
  | Unbound => ∅
  | Bound data =>
      match data !! "query" with
      | Some q => if String.eqb q "" then ∅ else {[ "query" := q ]}
      | None => ∅
      end
  end.

(** [form.is_valid()] *)
Definition is_valid (form : PexelsSearchForm) : M bool :=
  fun w => (Return (valid form), log EvIsValid w).

(** [form.cleaned_data[key]] *)
Definition cleaned_data_getitem (form : PexelsSearchForm) (key : string) : M string :=
  match cleaned_data form !! key with
  | Some v => ret v
  | None => raise (KeyError key)
  end.

End forms.

(** ** The view *)

Module views.
Import forms.

(** Django's [HttpRequest], as far as the view looks at it. *)
Record HttpRequest : Type := mkHttpRequest {
  method : string;
  POST : gmap string string
}.

(** What [render] is given: the template and the context. *)
Record Page : Type := mkPage {
  template : string;
  context_form : PexelsSearchForm;
  context_images : list PexelsImage.t
}.

Definition render (request : HttpRequest) (template : string)
    (form : PexelsSearchForm) (images : list PexelsImage.t) : M Page :=
  ret (mkPage template form images).

(** Reading a local variable of a function: one that no executed statement
    has assigned raises [UnboundLocalError]. *)
Definition local {A} (name : string) (v : option A) : M A :=
  match v with
  | Some a => ret a
  | None => raise (UnboundLocalError name)
  end.

(** [search(request)].  The [if]/[else] leaves the locals [form] and
    [images] behind; [images] is assigned in two of its three branches. *)
Definition search (request : HttpRequest) : M Page :=
  '(form, images) ←
    (if String.eqb (method request) "POST" then
       let form := Bound (POST request) in
       ok ← is_valid form;
       if ok : bool then
         query ← cleaned_data_getitem form "query";
         images ← models.search query;
         ret (form, Some images)
       else
         ret (form, None)
     else
       ret (Unbound, Some []));
  images ← local "images" images;
  render request "imagefinder/search.html" form images.

End views.

(** ** The query component of a URL *)

(** How the receiving end takes a request URL apart (RFC 3986, section 3,
    and the [name=value] pairs joined by [&] of a form-style query).
    Values are compared as they stand in the URL, before any
    percent-decoding.  The URL taken apart below is the one the code
    hands to [requests.get]; it is the URL on the wire when it holds
    nothing for [requests] to re-quote. *)
Module urls.

(** [s] up to the first [c]. *)
Fixpoint before (c : ascii) (s : string) : string :=
  match s with
  | EmptyString => EmptyString
  | String a rest => if Ascii.eqb a c then EmptyString else String a (before c rest)
  end.

(** [s] from just after the first [c]. *)
Fixpoint after (c : ascii) (s : string) : option string :=
  match s with
  | EmptyString => None
  | String a rest => if Ascii.eqb a c then Some rest else after c rest
  end.

(** The pieces of [s] between occurrences of [c]. *)
Fixpoint split (c : ascii) (s : string) : list string :=
  match s with
  | EmptyString => [EmptyString]
  | String a rest =>
      if Ascii.eqb a c then EmptyString :: split c rest
      else
        match split c rest with
        | [] => [String a EmptyString]
        | piece :: pieces => String a piece :: pieces
        end
  end.

(** Whether [c] occurs in [s]. *)
Fixpoint occurs (c : ascii) (s : string) : bool :=
  match s with
  | EmptyString => false
  | String a rest => if Ascii.eqb a c then true else occurs c rest
  end.

(** The query component: after the first [?], the fragment cut off. *)
Definition query_component (u : string) : option string :=
  after "?" (before "#" u).

Definition pair_of (piece : string) : string * string :=
  (before "=" piece, default EmptyString (after "=" piece)).

Definition parameters (u : string) : list (string * string) :=
  match query_component u with
  | Some q => pair_of <$> split "&" q
  | None => []
  end.

(** Every value the URL gives the parameter [name]. *)
Definition parameter (name : string) (u : string) : list string :=
  snd <$> filter (fun p => fst p = name) (parameters u).

(** The URL without query and fragment. *)
Definition location (u : string) : string :=
  before "?" (before "#" u).

(** The fragment: what follows the first [#]. *)
Definition fragment (u : string) : option string :=
  after "#" u.

(** Whether every character of [s] passes [p]. *)
Fixpoint all_chars (p : ascii → bool) (s : string) : bool :=
  match s with
  | EmptyString => true
  | String a rest => p a && all_chars p rest
  end.

(** The unreserved characters of RFC 3986: letters, digits, [-], [.],
    [_] and [~].  No URL quoting touches them. *)
Definition unreserved (a : ascii) : bool :=
  let n := nat_of_ascii a in
  ((65 <=? n) && (n <=? 90) || (97 <=? n) && (n <=? 122) ||
   (48 <=? n) && (n <=? 57) ||
   (n =? 45) || (n =? 46) || (n =? 95) || (n =? 126))%nat.

(** The unreserved characters with [&] and [=]: what further
    [name=value] pairs are written with. *)
Definition pair_char (a : ascii) : bool :=
  unreserved a || Ascii.eqb a "&" || Ascii.eqb a "=".

End urls.

(** ** Reading a trace *)

Definition is_http (e : event) : option Request :=
  match e with
  | EvHttp r => Some r
  | _ => None
  end.

(** The requests of the trace, in order: each is what one call of
    [requests.get] was given and sent. *)
Definition requests_sent (t : list event) : list Request :=
  omap is_http t.

Definition outcome {A} (run : result A * World) : result A := fst run.
Definition world_after {A} (run : result A * World) : World := snd run.

(** What a run added to the trace of the world it started in. *)
Definition events_of {A} (w : World) (run : result A * World) : list event :=
  drop (length (trace w)) (trace (world_after run)).

(** ** Vocabulary of the properties *)

(** The request [search] builds from the credential it read and the query. *)
Definition search_request (key : option string) (query : string) : Request :=
  mkRequest "GET" (endpoint +:+ "?query=" +:+ query) [("Authorization", fstring key)].

(** The part of [search] that comes after [response.json()]. *)
Definition images_of_data (data : json) : result (list PexelsImage.t) :=
  result_bind (getitem data "photos") (fun photos =>
  result_bind (py_iter photos) (fun items =>
  comprehension image_of_photo items)).

Definition str_member (key : string) (members : list (string * json)) : option string :=
  match dict_get key members with
  | Some (JString s) => Some s
  | _ => None
  end.

Definition obj_member (key : string) (members : list (string * json))
    : option (list (string * json)) :=
  match dict_get key members with
  | Some (JObject ms) => Some ms
  | _ => None
  end.

(** The spec's expected shape of a photo object,
    [{ "url": string, "src": { "tiny": string, ... }, "photographer": string, ... }]:
    the three strings of a photo of that shape, in the order [url],
    [src.tiny], [photographer]. *)
Definition photo_fields (photo : json) : option (string * string * string) :=
  match photo with
  | JObject ms =>
      u ← str_member "url" ms;
      src ← obj_member "src" ms;
      t ← str_member "tiny" src;
      n ← str_member "photographer" ms;
      Some (u, t, n)
  | _ => None
  end.

Definition well_formed_photo (photo : json) : Prop := is_Some (photo_fields photo).

(** The spec's mapping: [url] to the source URL, [src.tiny] to the preview
    URL, [photographer] to the photographer; the record is not saved. *)
Definition image_of_fields (f : string * string * string) : PexelsImage.t :=
  {| PexelsImage.pk := None;
     PexelsImage.url := JString f.1.1;
     PexelsImage.previewURL := JString f.1.2;
     PexelsImage.photographer := JString f.2 |}.




(** HTTP statuses. *)
Definition is_2xx (status : Z) : Prop := 200 ≤ status < 300.
Definition is_error_status (status : Z) : Prop := 400 ≤ status < 600.

(** ** Sample data *)

(** A photo object of the API, with more members than the code reads. *)
Definition sample_photo (u t n : string) : json :=
  JObject [("id", JNumber "2014422"); ("url", JString u);
           ("photographer", JString n);
           ("src", JObject [("original", JString (u +:+ "/original"));
                            ("tiny", JString t)]);
           ("liked", JBool false)].

(** A photo object whose [src] has no [tiny]. *)
Definition sample_photo_no_tiny (u n : string) : json :=
  JObject [("url", JString u); ("photographer", JString n);
           ("src", JObject [("original", JString (u +:+ "/original"))])].

(** A response body with the given [photos]. *)
Definition sample_body (photos : list json) : json :=
  JObject [("page", JNumber "1"); ("per_page", JNumber "15");
           ("photos", JArray photos); ("total_results", JNumber "8000")].

(** A world whose remote end answers every request with [resp]. *)
Definition answering (env : gmap string string) (resp : Response) : World :=
  mkWorld env (fun _ => Some resp) [] [].

(** The same world with [os.environ] replaced, as between two calls. *)
Definition with_environ (env : gmap string string) (w : World) : World :=
  {| environ := env; remote := remote w; table := table w; trace := trace w |}.

(** ** Vocabulary of the further properties *)

(** The name whose subscript is the first to fail when the comprehension
    builds a record from a photo object.  The keyword arguments are
    evaluated in the order they are written: [photo['url']],
    [photo['src']], then [['tiny']] on that, then [photo['photographer']]. *)
Inductive first_missing : json → string → Prop :=
  | first_missing_url ms :
      dict_get "url" ms = None →
      first_missing (JObject ms) "url"
  | first_missing_src ms u :
      dict_get "url" ms = Some u → dict_get "src" ms = None →
      first_missing (JObject ms) "src"
  | first_missing_tiny ms u src :
      dict_get "url" ms = Some u → dict_get "src" ms = Some (JObject src) →
      dict_get "tiny" src = None →
      first_missing (JObject ms) "tiny"
  | first_missing_photographer ms u src t :
      dict_get "url" ms = Some u → dict_get "src" ms = Some (JObject src) →
      dict_get "tiny" src = Some t → dict_get "photographer" ms = None →
      first_missing (JObject ms) "photographer".

(** A photo object that has the three members, holding values of any
    kind, and the unsaved record that holds the same three values. *)
Definition carries (photo : json) (img : PexelsImage.t) : Prop :=
  ∃ ms src,
    photo = JObject ms ∧
    dict_get "url" ms = Some (PexelsImage.url img) ∧
    dict_get "src" ms = Some (JObject src) ∧
    dict_get "tiny" src = Some (PexelsImage.previewURL img) ∧
    dict_get "photographer" ms = Some (PexelsImage.photographer img) ∧
    PexelsImage.pk img = None.

(** The values that are not lists and yet end a [for] loop at once: the
    empty dict and the empty str. *)
Definition iterates_to_nothing (v : json) : bool :=
  match v with
  | JObject [] => true
  | JString EmptyString => true
  | _ => false
  end.

(** A world to which the remote end never answers. *)
Definition unreachable (env : gmap string string) : World :=
  mkWorld env (fun _ => None) [] [].

(** An event of one kind is not in a trace spelled out with events of
    other kinds. *)
Ltac absent_from_trace :=
  let Hin := fresh "Hin" in
  cbn; intros Hin;
  repeat (apply elem_of_cons in Hin as [Hin|Hin]; [discriminate Hin|]);
  by apply elem_of_nil in Hin.

(** * Properties *)

(** ** Running [search] *)

Section search_run.
Variable query : string.
Variable w : World.

Let key := environ w !! "PEXELS_API_KEY".
Let r := search_request key query.
Let w_sent := log (EvHttp r) (log (EvEnvironGet "PEXELS_API_KEY") w).

Lemma search_no_response :
  remote w r = None →
  models.search query w = (Raise ConnectionError, w_sent).
Proof.
  intros H. unfold models.search, mbind, M_bind, bind, os_environ_get, requests_get.
  cbn. fold key. fold (search_request key query). fold r. by rewrite H.
Qed.

Lemma search_error_status resp :
  remote w r = Some resp → is_error_status (status_code resp) →
  models.search query w = (Raise (HTTPError (status_code resp)), w_sent).
Proof.
  intros H Hs. unfold models.search, mbind, M_bind, bind, os_environ_get, requests_get.
  cbn. fold key. fold (search_request key query). fold r. rewrite H.
  unfold raise_for_status. by rewrite bool_decide_eq_true_2.
Qed.

Lemma search_not_json resp :
  remote w r = Some resp → ¬ is_error_status (status_code resp) →
  content resp = None →
  models.search query w = (Raise JSONDecodeError, log EvJson w_sent).
Proof.
  intros H Hs Hc. unfold models.search, mbind, M_bind, bind, os_environ_get, requests_get.
  cbn. fold key. fold (search_request key query). fold r. rewrite H.
  unfold raise_for_status. rewrite bool_decide_eq_false_2 by done.
  unfold response_json. cbn. by rewrite Hc.
Qed.

Lemma search_json resp data :
  remote w r = Some resp → ¬ is_error_status (status_code resp) →
  content resp = Some data →
  models.search query w = (images_of_data data, log EvJson w_sent).
Proof.
  intros H Hs Hc. unfold models.search, mbind, M_bind, bind, os_environ_get, requests_get.
  cbn. fold key. fold (search_request key query). fold r. rewrite H.
  unfold raise_for_status. rewrite bool_decide_eq_false_2 by done.
  unfold response_json. cbn. rewrite Hc. unfold images_of_data, lift, ret.
  destruct (getitem data "photos") as [photos|e]; cbn; [|done].
  destruct (py_iter photos) as [items|e]; cbn; [|done].
  by destruct (comprehension image_of_photo items).
Qed.
End search_run.

(** ** Traces *)

Lemma events_of_grown {A} (w w' : World) (x : result A) (es : list event) :
  trace w' = trace w ++ es → events_of w (x, w') = es.
Proof.
  intros H. unfold events_of, world_after. cbn. rewrite H.
  by rewrite drop_app_length.
Qed.

Lemma trace_log e w : trace (log e w) = trace w ++ [e].
Proof. done. Qed.

Lemma table_log e w : table (log e w) = table w.
Proof. done. Qed.

(** Whatever happens, [search] reads the environment once and sends one
    request; it decodes the body only when the status let it through. *)
Lemma search_trace query w :
  let r := search_request (environ w !! "PEXELS_API_KEY") query in
  let sent := [EvEnvironGet "PEXELS_API_KEY"; EvHttp r] in
  ∃ es, trace (world_after (models.search query w)) = trace w ++ es ∧
        (es = sent ∨ es = sent ++ [EvJson]).
Proof.
  intros r sent.
  destruct (remote w r) as [resp|] eqn:Hr.
  - destruct (decide (is_error_status (status_code resp))) as [Hs|Hs].
    + exists sent. rewrite (search_error_status query w resp Hr Hs).
      split; [|by left]. cbn. by rewrite <- app_assoc.
    + exists (sent ++ [EvJson]). split; [|by right].
      destruct (content resp) as [data|] eqn:Hc.
      * rewrite (search_json query w resp data Hr Hs Hc).
        cbn. by rewrite <- !app_assoc.
      * rewrite (search_not_json query w resp Hr Hs Hc).
        cbn. by rewrite <- !app_assoc.
  - exists sent. rewrite (search_no_response query w Hr).
    split; [|by left]. cbn. by rewrite <- app_assoc.
Qed.

Lemma search_events query w :
  let r := search_request (environ w !! "PEXELS_API_KEY") query in
  let sent := [EvEnvironGet "PEXELS_API_KEY"; EvHttp r] in
  events_of w (models.search query w) = sent ∨
  events_of w (models.search query w) = sent ++ [EvJson].
Proof.
  intros r sent. destruct (search_trace query w) as (es & Ht & Hes).
  assert (events_of w (models.search query w) = es) as ->.
  { destruct (models.search query w) as [x w']. by apply events_of_grown. }
  done.
Qed.

(** Exactly one request leaves [search], the one it built. *)
Lemma search_sends_one_request query w :
  requests_sent (events_of w (models.search query w)) =
  [search_request (environ w !! "PEXELS_API_KEY") query].
Proof. by destruct (search_events query w) as [-> | ->]. Qed.

Lemma search_table query w :
  table (world_after (models.search query w)) = table w.
Proof.
  set (r := search_request (environ w !! "PEXELS_API_KEY") query).
  destruct (remote w r) as [resp|] eqn:Hr.
  - destruct (decide (is_error_status (status_code resp))) as [Hs|Hs].
    + by rewrite (search_error_status query w resp Hr Hs).
    + destruct (content resp) as [data|] eqn:Hc.
      * by rewrite (search_json query w resp data Hr Hs Hc).
      * by rewrite (search_not_json query w resp Hr Hs Hc).
  - by rewrite (search_no_response query w Hr).
Qed.

(** ** The comprehension *)

Lemma image_of_photo_fields photo f :
  photo_fields photo = Some f →
  image_of_photo photo = Return (image_of_fields f).
Proof.
  destruct photo as [| | | | |ms]; try done. cbn.
  unfold str_member, obj_member, image_of_photo, getitem.
  destruct (dict_get "url" ms) as [[| | |u| |]|]; try done. cbn.
  destruct (dict_get "src" ms) as [[| | | | |src]|]; try done. cbn.
  destruct (dict_get "tiny" src) as [[| | |t| |]|]; try done. cbn.
  destruct (dict_get "photographer" ms) as [[| | |n| |]|]; try done. cbn.
  by intros [= <-].
Qed.

Lemma comprehension_fields photos :
  Forall well_formed_photo photos →
  ∃ fs, Forall2 (fun photo f => photo_fields photo = Some f) photos fs ∧
        comprehension image_of_photo photos = Return (image_of_fields <$> fs).
Proof.
  induction 1 as [|photo photos [f Hf] _ (fs & Hfs & IH)].
  - by exists [].
  - exists (f :: fs). split; [by constructor|].
    cbn. rewrite (image_of_photo_fields _ _ Hf). cbn. by rewrite IH.
Qed.




(** A list that comes back holds one element per input, in order. *)
Lemma comprehension_returns {A B} (f : A → result B) xs ys :
  comprehension f xs = Return ys → Forall2 (fun x y => f x = Return y) xs ys.
Proof.
  revert ys. induction xs as [|x xs IH]; intros ys; cbn.
  - intros [= <-]. constructor.
  - destruct (f x) as [b|] eqn:Hx; cbn; [|done].
    destruct (comprehension f xs) as [bs|]; cbn; [|done].
    intros [= <-]. constructor; [done|by apply IH].
Qed.

(** ** The success path *)

(** C1 as stated, over every response, fails.  With an error status the
    body is never looked at, whatever it holds: a 404 whose body carries a
    well-formed photo gives an [HTTPError], not a list of one record. *)
Lemma search_error_status_ignores_photos :
  let photos := [sample_photo "https://www.pexels.com/photo/1" "https://images.pexels.com/1-tiny" "Ann"] in
  let resp := mkResponse 404 (Some (sample_body photos)) in
  let w := answering ∅ resp in
  (remote w (search_request (environ w !! "PEXELS_API_KEY") "cats") = Some resp ∧
   content resp = Some (sample_body photos) ∧
   getitem (sample_body photos) "photos" = Return (JArray photos) ∧
   Forall well_formed_photo photos) ∧
  outcome (models.search "cats" w) = Raise (HTTPError 404) ∧
  ¬ ∃ images, outcome (models.search "cats" w) = Return images.
Proof.
  cbv zeta. split_and!; try done.
  - repeat constructor. by eexists.
  - intros [images H]. vm_compute in H. discriminate.
Qed.

(** C1 (amended): for every response with a 2xx status whose decoded body
    has a top-level [photos] list of N well-formed photo objects, [search]
    returns exactly N records, the i-th one built from the i-th photo with
    [url], [src.tiny] and [photographer] mapped to [url], [previewURL]
    and [photographer]; nothing is skipped, merged or reordered, and an
    empty [photos] gives the empty list. *)
Theorem search_maps_photos (w : World) (query : string) (resp : Response)
    (data : json) (photos : list json) :
  remote w (search_request (environ w !! "PEXELS_API_KEY") query) = Some resp →
  is_2xx (status_code resp) →
  content resp = Some data →
  getitem data "photos" = Return (JArray photos) →
  Forall well_formed_photo photos →
  ∃ images,
    outcome (models.search query w) = Return images ∧
    length images = length photos ∧
    (photos = [] → images = []) ∧
    ∀ i photo, photos !! i = Some photo →
      ∃ u t n,
        photo_fields photo = Some (u, t, n) ∧
        images !! i = Some {| PexelsImage.pk := None;
                              PexelsImage.url := JString u;
                              PexelsImage.previewURL := JString t;
                              PexelsImage.photographer := JString n |}.
Proof.
  intros Hr Hs Hc Hp Hwf.
  assert (¬ is_error_status (status_code resp)) as Hok
    by (unfold is_2xx, is_error_status in *; lia).
  rewrite (search_json query w resp data Hr Hok Hc).
  unfold images_of_data. rewrite Hp. cbn.
  destruct (comprehension_fields photos Hwf) as (fs & Hfs & ->).
  exists (image_of_fields <$> fs). split_and!.
  - done.
  - rewrite length_fmap. symmetry. by eapply Forall2_length.
  - intros ->. by apply Forall2_nil_inv_l in Hfs as ->.
  - intros i photo Hi.
    destruct (Forall2_lookup_l _ _ _ _ _ Hfs Hi) as ([[u t] n] & Hf & Hpf).
    exists u, t, n. split; [done|].
    by rewrite list_lookup_fmap, Hf.
Qed.

Lemma search_maps_photos_witness :
  ∃ images,
    outcome (models.search "cats"
               (answering ∅ (mkResponse 200 (Some (sample_body
                  [sample_photo "u1" "t1" "Ann"; sample_photo "u2" "t2" "Bob";
                   sample_photo "u1" "t1" "Ann"]))))) = Return images ∧
    length images = 3%nat.
Proof.
  destruct (search_maps_photos
              (answering ∅ (mkResponse 200 (Some (sample_body
                 [sample_photo "u1" "t1" "Ann"; sample_photo "u2" "t2" "Bob";
                  sample_photo "u1" "t1" "Ann"]))))
              "cats" _ _ _ eq_refl ltac:(unfold is_2xx; cbn; lia) eq_refl eq_refl
              ltac:(repeat constructor; by eexists))
    as (images & H1 & H2 & _).
  exists images. split; assumption.
Defined.

(** ** Running the view *)

Section view_run.
Import views forms.
Variable request : HttpRequest.
Variable w : World.

Lemma view_not_post :
  method request ≠ "POST" →
  views.search request w =
  (Return (mkPage "imagefinder/search.html" Unbound []), w).
Proof.
  intros H. unfold views.search.
  apply String.eqb_neq in H. by rewrite H.
Qed.

Lemma view_invalid_post :
  method request = "POST" → valid (Bound (POST request)) = false →
  views.search request w = (Raise (UnboundLocalError "images"), log EvIsValid w).
Proof.
  intros Hm Hv. unfold views.search. rewrite Hm. cbn -[valid].
  unfold mbind, M_bind, bind, is_valid. by rewrite Hv.
Qed.

Lemma view_valid_post query :
  method request = "POST" → POST request !! "query" = Some query → query ≠ "" →
  views.search request w =
  match models.search query (log EvIsValid w) with
  | (Return images, w') =>
      (Return (mkPage "imagefinder/search.html" (Bound (POST request)) images), w')
  | (Raise e, w') => (Raise e, w')
  end.
Proof.
  intros Hm Hq Hne. unfold views.search. rewrite Hm. cbn -[models.search].
  unfold mbind, M_bind, bind, is_valid, cleaned_data_getitem. cbn -[models.search].
  rewrite Hq. apply String.eqb_neq in Hne. rewrite Hne.
  rewrite lookup_singleton_eq. cbn -[models.search].
  by destruct (models.search query (log EvIsValid w)) as [[images|e] w'].
Qed.

(** An invalid submission is exactly a missing or empty [query]. *)
Lemma invalid_iff :
  valid (Bound (POST request)) = false ↔
  POST request !! "query" = None ∨ POST request !! "query" = Some "".
Proof.
  cbn. destruct (POST request !! "query") as [q|]; [|by split; [left|]].
  destruct (String.eqb_spec q "") as [->|Hq]; cbn.
  - by split; [right|].
  - split; [done|]. intros [[=]|[= ->]]. done.
Qed.
End view_run.

(** C2: a POST whose [query] is empty reaches the line that builds the
    context with [images] never assigned: the view raises
    [UnboundLocalError] where the claim has it return an empty list.  The
    other half of the claim holds: validation is all that happened, no
    request went out. *)
Theorem view_empty_query_unbound_images (w : World) :
  let request := views.mkHttpRequest "POST" {[ "query" := "" ]} in
  forms.valid (forms.Bound (views.POST request)) = false ∧
  outcome (views.search request w) = Raise (UnboundLocalError "images") ∧
  events_of w (views.search request w) = [EvIsValid] ∧
  requests_sent (events_of w (views.search request w)) = [].
Proof.
  intros request.
  assert (forms.valid (forms.Bound (views.POST request)) = false) as Hv by done.
  rewrite (view_invalid_post request w eq_refl Hv).
  assert (events_of w (Raise (A:=views.Page) (UnboundLocalError "images"), log EvIsValid w)
          = [EvIsValid]) as -> by (by apply events_of_grown).
  done.
Qed.

(** The same with the field missing altogether. *)
Lemma view_missing_query_unbound_images (w : World) :
  outcome (views.search (views.mkHttpRequest "POST" ∅) w)
  = Raise (UnboundLocalError "images").
Proof.
  assert (forms.valid (forms.Bound ∅) = false) as Hv by done.
  by rewrite (view_invalid_post (views.mkHttpRequest "POST" ∅) w eq_refl Hv).
Qed.

(** C5: a request whose method is not POST gets the page with an unbound
    form and an empty list of images, and the world is left as it was:
    nothing was validated and nothing was sent. *)
Theorem view_get_is_empty (request : views.HttpRequest) (w : World) :
  views.method request ≠ "POST" →
  ∃ page,
    outcome (views.search request w) = Return page ∧
    views.context_images page = [] ∧
    views.context_form page = forms.Unbound ∧
    world_after (views.search request w) = w ∧
    events_of w (views.search request w) = [] ∧
    (EvIsValid ∉ events_of w (views.search request w)) ∧
    requests_sent (events_of w (views.search request w)) = [].
Proof.
  intros H. rewrite (view_not_post request w H).
  eexists. split; [done|].
  assert (events_of w (Return (views.mkPage "imagefinder/search.html" forms.Unbound []), w)
          = []) as ->.
  { apply events_of_grown. by rewrite app_nil_r. }
  split_and!; try done. apply not_elem_of_nil.
Qed.

Lemma view_get_is_empty_witness :
  ∃ page,
    outcome (views.search (views.mkHttpRequest "GET" {[ "query" := "cats" ]})
               (answering ∅ (mkResponse 200 (Some (sample_body []))))) = Return page ∧
    views.context_images page = [].
Proof.
  destruct (view_get_is_empty (views.mkHttpRequest "GET" {[ "query" := "cats" ]})
              (answering ∅ (mkResponse 200 (Some (sample_body []))))
              ltac:(discriminate))
    as (page & H1 & H2 & _).
  exists page. split; assumption.
Defined.

(** ** The failure paths *)

(** X1: a client or server error status ends [search] with an [HTTPError]
    carrying the status; the request went out once and the body was not
    decoded. *)
Lemma search_http_error (w : World) (query : string) (resp : Response) :
  remote w (search_request (environ w !! "PEXELS_API_KEY") query) = Some resp →
  is_error_status (status_code resp) →
  outcome (models.search query w) = Raise (HTTPError (status_code resp)) ∧
  events_of w (models.search query w) =
    [EvEnvironGet "PEXELS_API_KEY";
     EvHttp (search_request (environ w !! "PEXELS_API_KEY") query)].
Proof.
  intros Hr Hs. rewrite (search_error_status query w resp Hr Hs).
  split; [done|]. apply events_of_grown. cbn. by rewrite <- app_assoc.
Qed.

(** C3: [raise_for_status] raises for 4xx and 5xx only.  A response with
    status 300, which is not 2xx, passes it: the body is decoded and
    [search] returns the list (here the empty one) where the claim, and
    the comment on that line of the source, have it raise. *)
Theorem search_status_300_returns (env : gmap string string) (query : string) :
  let resp := mkResponse 300 (Some (sample_body [])) in
  let w := answering env resp in
  ¬ is_2xx (status_code resp) ∧
  outcome (models.search query w) = Return [] ∧
  outcome (models.search query w) ≠ Raise (HTTPError 300) ∧
  events_of w (models.search query w) =
    [EvEnvironGet "PEXELS_API_KEY";
     EvHttp (search_request (env !! "PEXELS_API_KEY") query);
     EvJson].
Proof.
  intros resp w.
  assert (¬ is_error_status (status_code resp)) as Hs
    by (unfold is_error_status; cbn; lia).
  rewrite (search_json query w resp (sample_body []) eq_refl Hs eq_refl).
  split_and!; try done.
  unfold is_2xx. cbn. lia.
Qed.






(** The exception is the caller's too: the view hands on whatever
    [search] raised. *)
Lemma view_propagates (request : views.HttpRequest) (w : World) (query : string) (e : exn) :
  views.method request = "POST" →
  views.POST request !! "query" = Some query → query ≠ "" →
  outcome (models.search query (log EvIsValid w)) = Raise e →
  outcome (views.search request w) = Raise e.
Proof.
  intros Hm Hq Hne Hs. rewrite (view_valid_post request w query Hm Hq Hne).
  destruct (models.search query (log EvIsValid w)) as [[images|e'] w'];
    unfold outcome in *; cbn in *; congruence.
Qed.

(** ** The request *)

Section url_parts.
Import urls.
Variable c : ascii.

Lemma before_absent s : occurs c s = false → before c s = s.
Proof.
  induction s as [|a s IH]; cbn; [done|].
  destruct (Ascii.eqb a c); [done|]. intros H. by rewrite IH.
Qed.

Lemma after_absent s : occurs c s = false → after c s = None.
Proof.
  induction s as [|a s IH]; cbn; [done|].
  by destruct (Ascii.eqb a c).
Qed.

Lemma split_absent s : occurs c s = false → split c s = [s].
Proof.
  induction s as [|a s IH]; cbn; [done|].
  destruct (Ascii.eqb a c); [done|]. intros H. by rewrite IH.
Qed.
End url_parts.

(** The URL is the endpoint, [?query=] and the query as it was typed. *)
Lemma search_request_url key query :
  req_url (search_request key query) = endpoint +:+ "?query=" +:+ query ∧
  req_verb (search_request key query) = "GET".
Proof. done. Qed.

(** In the URL the code builds, a query free of [&] and [#] is the one value of the
    parameter [query], at the endpoint. *)
Lemma search_request_plain_query key query :
  urls.occurs "&" query = false → urls.occurs "#" query = false →
  urls.location (req_url (search_request key query)) = endpoint ∧
  urls.parameter "query" (req_url (search_request key query)) = [query].
Proof.
  intros Hamp Hhash. unfold urls.location, urls.parameter, urls.parameters,
    urls.query_component, endpoint. simpl.
  change ("" +:+ query) with query.
  rewrite (before_absent "#" query Hhash), (split_absent "&" query Hamp).
  done.
Qed.

(** C6: the query is pasted into the URL without encoding.  For the
    query [cats&dogs] one GET request goes to the endpoint, as claimed,
    but its [query] parameter is [cats], not the input: the [&] ends the
    parameter and [dogs] becomes a parameter of its own. *)
Theorem search_query_with_ampersand (w : World) :
  ∃ r,
    requests_sent (events_of w (models.search "cats&dogs" w)) = [r] ∧
    req_verb r = "GET" ∧
    req_url r = "https://api.pexels.com/v1/search?query=cats&dogs" ∧
    urls.location (req_url r) = endpoint ∧
    urls.parameters (req_url r) = [("query", "cats"); ("dogs", "")] ∧
    urls.parameter "query" (req_url r) = ["cats"] ∧
    urls.parameter "query" (req_url r) ≠ ["cats&dogs"].
Proof.
  eexists. split; [apply search_sends_one_request|].
  split_and!; done.
Qed.

(** The same for a [#]: what follows it is a fragment and never reaches
    the server. *)
Lemma search_query_with_hash (w : World) :
  ∃ r,
    requests_sent (events_of w (models.search "c#" w)) = [r] ∧
    urls.parameter "query" (req_url r) = ["c"].
Proof. eexists. split; [apply search_sends_one_request|done]. Qed.

(** ** The credential *)

(** What every call of [search] hands to [requests.get]: the credential
    it has just read, the text [None] when the variable is not set. *)
Lemma search_hands_credential_each_call (w : World) (query query' : string)
    (env' : gmap string string) :
  let header_of (w0 : World) := [("Authorization", fstring (environ w0 !! "PEXELS_API_KEY"))] in
  let w' := with_environ env' (world_after (models.search query w)) in
  (take 2 (events_of w (models.search query w)) =
     [EvEnvironGet "PEXELS_API_KEY";
      EvHttp (mkRequest "GET" (endpoint +:+ "?query=" +:+ query) (header_of w))]) ∧
  (take 2 (events_of w' (models.search query' w')) =
     [EvEnvironGet "PEXELS_API_KEY";
      EvHttp (mkRequest "GET" (endpoint +:+ "?query=" +:+ query')
                [("Authorization", fstring (env' !! "PEXELS_API_KEY"))])]) ∧
  (∀ k, environ w !! "PEXELS_API_KEY" = Some k → header_of w = [("Authorization", k)]) ∧
  (environ w !! "PEXELS_API_KEY" = None → header_of w = [("Authorization", "None")]).
Proof.
  intros header_of w'. split_and!.
  - by destruct (search_events query w) as [-> | ->].
  - by destruct (search_events query' w') as [-> | ->].
  - intros k Hk. unfold header_of. by rewrite Hk.
  - intros Hk. unfold header_of. by rewrite Hk.
Qed.

(** *** With the checks of [requests] in front *)

Lemma checks_authorization (value : string) :
  checked.invalid [("Authorization", value)] = negb (checked.value_valid value) ∧
  checked.illegal [("Authorization", value)] = checked.value_illegal value.
Proof.
  unfold checked.invalid, checked.illegal. cbn.
  rewrite !andb_true_r. split; [done|].
  by destruct (checked.value_illegal value).
Qed.

(** With a credential that passes, the checked client is the plain one. *)
Lemma checked_search_accepted (w : World) (query : string) :
  checked.acceptable (fstring (environ w !! "PEXELS_API_KEY")) = true →
  checked.search query w = models.search query w.
Proof.
  intros [Hv Hi%negb_true_iff]%andb_true_iff.
  destruct (checks_authorization (fstring (environ w !! "PEXELS_API_KEY"))) as [H1 H2].
  unfold checked.search, models.search, mbind, M_bind, bind, os_environ_get,
    checked.requests_get.
  cbn -[checked.invalid checked.illegal]. by rewrite H1, H2, Hv, Hi.
Qed.


Lemma acceptable_tail (rest : string) :
  checked.no_line_break rest && negb (checked.value_illegal rest) =
  negb (urls.occurs "010" rest) && negb (urls.occurs "013" rest).
Proof.
  induction rest as [|d r IH]; [done|].
  cbn. unfold checked.is_lf, checked.is_cr.
  destruct (Ascii.eqb d "010") eqn:Elf; cbn.
  - by destruct r.
  - destruct (Ascii.eqb d "013") eqn:Ecr; cbn; [by rewrite andb_false_r|].
    exact IH.
Qed.

(** A value passes the two checks exactly when it is empty, or starts
    with something other than white space and holds no CR and no LF. *)
Lemma acceptable_iff (value : string) :
  checked.acceptable value =
  match value with
  | EmptyString => true
  | String c _ =>
      negb (checked.is_space c) &&
      negb (urls.occurs "010" value) && negb (urls.occurs "013" value)
  end.
Proof.
  destruct value as [|c rest]; [done|].
  unfold checked.acceptable. cbn. unfold checked.is_lf, checked.is_cr.
  destruct (checked.is_space c) eqn:Hsp; cbn.
  - destruct (Ascii.eqb c "010") eqn:Elf; cbn; [|done].
    destruct rest; cbn; [done|done].
  - destruct (Ascii.eqb_spec c "010") as [->|_]; [discriminate Hsp|].
    destruct (Ascii.eqb_spec c "013") as [->|_]; [discriminate Hsp|].
    cbn. apply acceptable_tail.
Qed.





(** ** Where a record comes from *)

(** A record that was built holds what the three subscripts of one photo
    gave, and has no primary key. *)
Lemma image_of_photo_returns photo img :
  image_of_photo photo = Return img →
  ∃ src,
    getitem photo "url" = Return (PexelsImage.url img) ∧
    getitem photo "src" = Return src ∧
    getitem src "tiny" = Return (PexelsImage.previewURL img) ∧
    getitem photo "photographer" = Return (PexelsImage.photographer img) ∧
    PexelsImage.pk img = None.
Proof.
  unfold image_of_photo.
  destruct (getitem photo "url") as [u|]; cbn; [|done].
  destruct (getitem photo "src") as [src|]; cbn; [|done].
  destruct (getitem src "tiny") as [t|] eqn:Ht; cbn; [|done].
  destruct (getitem photo "photographer") as [n|]; cbn; [|done].
  intros [= <-]. by exists src.
Qed.

(** A list comes back only by way of a decoded body. *)
Lemma search_returns_inv (w : World) (query : string) (images : list PexelsImage.t) :
  outcome (models.search query w) = Return images →
  ∃ resp data,
    remote w (search_request (environ w !! "PEXELS_API_KEY") query) = Some resp ∧
    ¬ is_error_status (status_code resp) ∧
    content resp = Some data ∧
    images_of_data data = Return images.
Proof.
  set (r := search_request (environ w !! "PEXELS_API_KEY") query).
  destruct (remote w r) as [resp|] eqn:Hr.
  - destruct (decide (is_error_status (status_code resp))) as [Hs|Hs].
    + by rewrite (search_error_status query w resp Hr Hs).
    + destruct (content resp) as [data|] eqn:Hc.
      * rewrite (search_json query w resp data Hr Hs Hc). cbn.
        intros H. by exists resp, data.
      * by rewrite (search_not_json query w resp Hr Hs Hc).
  - by rewrite (search_no_response query w Hr).
Qed.

(** A record that was built holds the values of the three members of
    the photo object it was built from. *)
Lemma image_of_photo_carries photo img :
  image_of_photo photo = Return img → carries photo img.
Proof.
  unfold image_of_photo.
  destruct photo as [| | | | |ms]; try done. cbn.
  destruct (dict_get "url" ms) as [u|] eqn:Hu; cbn; [|done].
  destruct (dict_get "src" ms) as [[| | | | |src]|] eqn:Hs; cbn; try done.
  destruct (dict_get "tiny" src) as [t|] eqn:Ht; cbn; [|done].
  destruct (dict_get "photographer" ms) as [n|] eqn:Hn; cbn; [|done].
  intros [= <-]. by exists ms, src.
Qed.

(** What the loop visits when [photos] is no list: nothing, or something
    no record can be built from. *)
Lemma comprehension_not_a_list photos_value items images :
  (∀ photos, photos_value ≠ JArray photos) →
  py_iter photos_value = Return items →
  comprehension image_of_photo items = Return images →
  iterates_to_nothing photos_value = true ∧ images = [].
Proof.
  intros Hnl Hi Hc.
  destruct photos_value as [| | |s|photos|members]; try done.
  - destruct s; cbn in Hi; injection Hi as <-; [|done].
    cbn in Hc. by injection Hc as <-.
  - by destruct (Hnl photos).
  - destruct members as [|[k v] members]; cbn in Hi; injection Hi as <-; [|done].
    cbn in Hc. by injection Hc as <-.
Qed.

(** C8: whenever [search] returns a list, the response's body is an
    object whose [photos] is a list of that length, and the record at
    each position has all three fields from the members of the photo
    object at that position: [url] is its [url], [previewURL] the [tiny]
    of its [src], [photographer] its [photographer].  (A [photos] that is
    no list gives no record at all.) *)
Theorem search_records_whole (w : World) (query : string) (images : list PexelsImage.t) :
  outcome (models.search query w) = Return images →
  ∃ resp ms photos_value,
    remote w (search_request (environ w !! "PEXELS_API_KEY") query) = Some resp ∧
    content resp = Some (JObject ms) ∧
    dict_get "photos" ms = Some photos_value ∧
    ((∃ photos,
        photos_value = JArray photos ∧
        length images = length photos ∧
        ∀ i img, images !! i = Some img →
          ∃ pm src,
            photos !! i = Some (JObject pm) ∧
            dict_get "url" pm = Some (PexelsImage.url img) ∧
            dict_get "src" pm = Some (JObject src) ∧
            dict_get "tiny" src = Some (PexelsImage.previewURL img) ∧
            dict_get "photographer" pm = Some (PexelsImage.photographer img))
     ∨ (iterates_to_nothing photos_value = true ∧ images = [])).
Proof.
  intros H. destruct (search_returns_inv w query images H) as (resp & data & Hr & _ & Hc & Hd).
  unfold images_of_data in Hd.
  destruct data as [| | | | |ms]; try done. cbn in Hd.
  destruct (dict_get "photos" ms) as [photos_value|] eqn:Hp; [|done]. cbn in Hd.
  destruct (py_iter photos_value) as [items|] eqn:Hi; cbn in Hd; [|done].
  exists resp, ms, photos_value. split_and!; try done.
  assert ((∃ photos, photos_value = JArray photos) ∨
          (∀ photos, photos_value ≠ JArray photos)) as [[photos ->]|Hnl].
  { destruct photos_value; try (by right); left; by eexists. }
  - left. exists photos. injection Hi as <-.
    apply comprehension_returns in Hd. split_and!; [done| |].
    + symmetry. by eapply Forall2_length.
    + intros i img Himg.
      destruct (Forall2_lookup_r _ _ _ _ _ Hd Himg) as (photo & Hphoto & Hbuilt).
      destruct (image_of_photo_carries photo img Hbuilt)
        as (pm & src & -> & ? & ? & ? & ? & _).
      by exists pm, src.
  - right. by apply (comprehension_not_a_list photos_value items images).
Qed.

Lemma search_records_whole_witness :
  ∃ resp ms photos_value,
    content resp = Some (JObject ms) ∧
    dict_get "photos" ms = Some photos_value ∧
    resp = mkResponse 200 (Some (sample_body
             [sample_photo "u1" "t1" "Ann"; sample_photo "u2" "t2" "Bob"])).
Proof.
  destruct (search_records_whole
              (answering ∅ (mkResponse 200 (Some (sample_body
                 [sample_photo "u1" "t1" "Ann"; sample_photo "u2" "t2" "Bob"]))))
              "cats"
              [image_of_fields ("u1", "t1", "Ann"); image_of_fields ("u2", "t2", "Bob")]
              eq_refl)
    as (resp & ms & photos_value & Hr & Hc & Hp & _).
  exists resp, ms, photos_value. split; [exact Hc|]. split; [exact Hp|].
  injection Hr as <-. reflexivity.
Defined.

(** ** The table *)

(** Saving does change the table: the frame property below is about the
    application, not about a table nothing could write. *)
Lemma Model_save_writes img w :
  table (world_after (Model_save img w)) = table w ++ [img].
Proof. done. Qed.

Lemma view_trace request w :
  ∃ es, trace (world_after (views.search request w)) = trace w ++ es ∧ EvSave ∉ es.
Proof.
  destruct (decide (views.method request = "POST")) as [Hm|Hm].
  - destruct (views.POST request !! "query") as [query|] eqn:Hq.
    + destruct (decide (query = "")) as [->|Hne].
      * rewrite (view_invalid_post request w Hm).
        -- exists [EvIsValid]. split; [done|]. by intros [=]%list_elem_of_singleton.
        -- cbn. by rewrite Hq.
      * rewrite (view_valid_post request w query Hm Hq Hne).
        destruct (search_trace query (log EvIsValid w)) as (es & Ht & Hes).
        exists (EvIsValid :: es). split.
        -- destruct (models.search query (log EvIsValid w)) as [[images|e] w'];
             cbn in *; rewrite Ht; by rewrite <- app_assoc.
        -- intros [[=]|Hin]%elem_of_cons.
           revert Hin. destruct Hes as [-> | ->]; absent_from_trace.
    + rewrite (view_invalid_post request w Hm).
      * exists [EvIsValid]. split; [done|]. by intros [=]%list_elem_of_singleton.
      * cbn. by rewrite Hq.
  - rewrite (view_not_post request w Hm). exists []. split.
    + cbn. by rewrite app_nil_r.
    + apply not_elem_of_nil.
Qed.

Lemma view_table request w :
  table (world_after (views.search request w)) = table w.
Proof.
  destruct (decide (views.method request = "POST")) as [Hm|Hm].
  - destruct (views.POST request !! "query") as [query|] eqn:Hq.
    + destruct (decide (query = "")) as [->|Hne].
      * rewrite (view_invalid_post request w Hm); [done|]. cbn. by rewrite Hq.
      * rewrite (view_valid_post request w query Hm Hq Hne).
        pose proof (search_table query (log EvIsValid w)) as Ht.
        by destruct (models.search query (log EvIsValid w)) as [[images|e] w'].
    + rewrite (view_invalid_post request w Hm); [done|]. cbn. by rewrite Hq.
  - by rewrite (view_not_post request w Hm).
Qed.

(** C9: neither the view nor [search] touches the table: after any call,
    on any path, its rows are the rows before the call, no save was made,
    and every record [search] returns is without a primary key, that is,
    unsaved. *)
Theorem nothing_is_saved (w : World) (request : views.HttpRequest) (query : string) :
  table (world_after (views.search request w)) = table w ∧
  table (world_after (models.search query w)) = table w ∧
  (EvSave ∉ events_of w (views.search request w)) ∧
  (EvSave ∉ events_of w (models.search query w)) ∧
  match outcome (models.search query w) with
  | Return images => Forall (fun img => PexelsImage.pk img = None) images
  | Raise _ => True
  end.
Proof.
  split_and!.
  - apply view_table.
  - apply search_table.
  - destruct (view_trace request w) as (es & Ht & Hes).
    assert (events_of w (views.search request w) = es) as ->; [|done].
    destruct (views.search request w) as [x w']. by apply events_of_grown.
  - destruct (search_events query w) as [-> | ->]; absent_from_trace.
  - destruct (outcome (models.search query w)) as [images|e] eqn:H; [|done].
    destruct (search_returns_inv w query images H) as (_ & data & _ & _ & _ & Hd).
    unfold images_of_data in Hd.
    destruct (getitem data "photos") as [pv|]; cbn in Hd; [|done].
    destruct (py_iter pv) as [photos|]; cbn in Hd; [|done].
    apply comprehension_returns in Hd. clear H.
    induction Hd as [|photo img photos images Hb _ IH]; constructor; [|done].
    by destruct (image_of_photo_returns photo img Hb) as (? & _ & _ & _ & _ & ?).
Qed.

(** ** Determinism *)

(** C10: two runs of [search] with the same query, in worlds that agree
    on [PEXELS_API_KEY] and on the response to the request, end the same
    way: with equal lists or with the same exception.  Nothing else of
    the world (other variables, the table, what happened before) has a
    say. *)
Theorem search_deterministic (w1 w2 : World) (query : string) :
  environ w1 !! "PEXELS_API_KEY" = environ w2 !! "PEXELS_API_KEY" →
  remote w1 (search_request (environ w1 !! "PEXELS_API_KEY") query) =
  remote w2 (search_request (environ w2 !! "PEXELS_API_KEY") query) →
  outcome (models.search query w1) = outcome (models.search query w2).
Proof.
  intros Hk Hr.
  set (r1 := search_request (environ w1 !! "PEXELS_API_KEY") query) in *.
  set (r2 := search_request (environ w2 !! "PEXELS_API_KEY") query) in *.
  destruct (remote w1 r1) as [resp|] eqn:H1; symmetry in Hr.
  - destruct (decide (is_error_status (status_code resp))) as [Hs|Hs].
    + by rewrite (search_error_status query w1 resp H1 Hs),
                 (search_error_status query w2 resp Hr Hs).
    + destruct (content resp) as [data|] eqn:Hc.
      * by rewrite (search_json query w1 resp data H1 Hs Hc),
                   (search_json query w2 resp data Hr Hs Hc).
      * by rewrite (search_not_json query w1 resp H1 Hs Hc),
                   (search_not_json query w2 resp Hr Hs Hc).
  - by rewrite (search_no_response query w1 H1), (search_no_response query w2 Hr).
Qed.

Lemma search_deterministic_witness :
  let resp := mkResponse 200 (Some (sample_body [sample_photo "u1" "t1" "Ann"])) in
  let w1 := mkWorld {[ "PEXELS_API_KEY" := "key-1" ]} (fun _ => Some resp) [] [] in
  let w2 := mkWorld {[ "PEXELS_API_KEY" := "key-1"; "HOME" := "/root" ]}
              (fun r => if String.eqb (req_url r) "https://api.pexels.com/v1/search?query=cats"
                        then Some resp else None)
              [image_of_fields ("u0", "t0", "Zed")] [EvIsValid] in
  outcome (models.search "cats" w1) = outcome (models.search "cats" w2).
Proof.
  intros resp w1 w2.
  apply (search_deterministic w1 w2 "cats"); reflexivity.
Defined.

(** * Further properties of the two functions *)

(** ** The other ways [search] ends *)

(** What [search] returns or raises depends on the world through the
    environment and the remote end only. *)
Lemma search_outcome_same_io (w1 w2 : World) (query : string) :
  environ w1 = environ w2 → remote w1 = remote w2 →
  outcome (models.search query w1) = outcome (models.search query w2).
Proof.
  intros He Hr.
  set (r := search_request (environ w1 !! "PEXELS_API_KEY") query).
  assert (search_request (environ w2 !! "PEXELS_API_KEY") query = r) as Hr2
    by (by rewrite <- He).
  destruct (remote w1 r) as [resp|] eqn:H1.
  - assert (remote w2 (search_request (environ w2 !! "PEXELS_API_KEY") query) = Some resp)
      as H2 by (by rewrite Hr2, <- Hr).
    destruct (decide (is_error_status (status_code resp))) as [Hs|Hs].
    + by rewrite (search_error_status query w1 resp H1 Hs),
                 (search_error_status query w2 resp H2 Hs).
    + destruct (content resp) as [data|] eqn:Hc.
      * by rewrite (search_json query w1 resp data H1 Hs Hc),
                   (search_json query w2 resp data H2 Hs Hc).
      * by rewrite (search_not_json query w1 resp H1 Hs Hc),
                   (search_not_json query w2 resp H2 Hs Hc).
  - assert (remote w2 (search_request (environ w2 !! "PEXELS_API_KEY") query) = None)
      as H2 by (by rewrite Hr2, <- Hr).
    by rewrite (search_no_response query w1 H1), (search_no_response query w2 H2).
Qed.

(** The events of a run of [search], spelled out. *)
Lemma search_events_eq (w : World) (query : string) :
  events_of w (models.search query w) =
  [EvEnvironGet "PEXELS_API_KEY";
   EvHttp (search_request (environ w !! "PEXELS_API_KEY") query)] ++
  match remote w (search_request (environ w !! "PEXELS_API_KEY") query) with
  | Some resp => if bool_decide (is_error_status (status_code resp)) then [] else [EvJson]
  | None => []
  end.
Proof.
  destruct (remote w _) as [resp|] eqn:Hr.
  - case_bool_decide as Hs.
    + rewrite (search_error_status query w resp Hr Hs).
      apply events_of_grown. cbn. by rewrite <- !app_assoc.
    + destruct (content resp) as [data|] eqn:Hc.
      * rewrite (search_json query w resp data Hr Hs Hc).
        apply events_of_grown. cbn. by rewrite <- !app_assoc.
      * rewrite (search_not_json query w resp Hr Hs Hc).
        apply events_of_grown. cbn. by rewrite <- !app_assoc.
  - rewrite (search_no_response query w Hr).
    apply events_of_grown. cbn. by rewrite <- !app_assoc.
Qed.

(** X3: when no response arrives, the exception of [requests.get] leaves
    [search] as it is: there is no [try] around the call.  The request
    was attempted once and nothing was decoded. *)
Theorem search_connection_failure (w : World) (query : string) :
  remote w (search_request (environ w !! "PEXELS_API_KEY") query) = None →
  outcome (models.search query w) = Raise ConnectionError ∧
  events_of w (models.search query w) =
    [EvEnvironGet "PEXELS_API_KEY";
     EvHttp (search_request (environ w !! "PEXELS_API_KEY") query)].
Proof.
  intros Hr. rewrite (search_no_response query w Hr).
  split; [done|]. apply events_of_grown. cbn. by rewrite <- app_assoc.
Qed.

Lemma search_connection_failure_witness :
  outcome (models.search "cats" (unreachable ∅)) = Raise ConnectionError.
Proof.
  exact (proj1 (search_connection_failure (unreachable ∅) "cats" eq_refl)).
Defined.

(** X4: a response that passes the status check with a body that is not
    JSON (an empty 204, an HTML page) ends [search] with the
    [JSONDecodeError] of [response.json()]. *)
Theorem search_body_not_json (w : World) (query : string) (resp : Response) :
  remote w (search_request (environ w !! "PEXELS_API_KEY") query) = Some resp →
  ¬ is_error_status (status_code resp) →
  content resp = None →
  outcome (models.search query w) = Raise JSONDecodeError ∧
  events_of w (models.search query w) =
    [EvEnvironGet "PEXELS_API_KEY";
     EvHttp (search_request (environ w !! "PEXELS_API_KEY") query);
     EvJson].
Proof.
  intros Hr Hs Hc. rewrite (search_not_json query w resp Hr Hs Hc).
  split; [done|]. apply events_of_grown. cbn. by rewrite <- !app_assoc.
Qed.

Lemma search_body_not_json_witness :
  outcome (models.search "cats" (answering ∅ (mkResponse 204 None)))
  = Raise JSONDecodeError.
Proof.
  exact (proj1 (search_body_not_json (answering ∅ (mkResponse 204 None)) "cats"
                  (mkResponse 204 None) eq_refl
                  ltac:(unfold is_error_status; cbn; lia) eq_refl)).
Defined.

Lemma search_http_error_witness :
  outcome (models.search "cats" (answering ∅ (mkResponse 429 None)))
  = Raise (HTTPError 429).
Proof.
  exact (proj1 (search_http_error (answering ∅ (mkResponse 429 None)) "cats"
                  (mkResponse 429 None) eq_refl
                  ltac:(unfold is_error_status; cbn; lia))).
Defined.

(** X5: outside 400-599 the status plays no part: two responses with the
    same body end [search] the same way, be their statuses 200 and 302
    or any other two that [raise_for_status] lets through. *)
Theorem search_status_ignored_outside_errors (w1 w2 : World) (query : string)
    (resp1 resp2 : Response) :
  remote w1 (search_request (environ w1 !! "PEXELS_API_KEY") query) = Some resp1 →
  remote w2 (search_request (environ w2 !! "PEXELS_API_KEY") query) = Some resp2 →
  ¬ is_error_status (status_code resp1) →
  ¬ is_error_status (status_code resp2) →
  content resp1 = content resp2 →
  outcome (models.search query w1) = outcome (models.search query w2).
Proof.
  intros H1 H2 Hs1 Hs2 Hc.
  destruct (content resp1) as [data|] eqn:Hc1; symmetry in Hc.
  - by rewrite (search_json query w1 resp1 data H1 Hs1 Hc1),
               (search_json query w2 resp2 data H2 Hs2 Hc).
  - by rewrite (search_not_json query w1 resp1 H1 Hs1 Hc1),
               (search_not_json query w2 resp2 H2 Hs2 Hc).
Qed.

Lemma search_status_ignored_outside_errors_witness :
  let body := Some (sample_body [sample_photo "u1" "t1" "Ann"]) in
  outcome (models.search "cats" (answering ∅ (mkResponse 200 body))) =
  outcome (models.search "cats" (answering ∅ (mkResponse 302 body))).
Proof.
  intros body.
  apply (search_status_ignored_outside_errors
           (answering ∅ (mkResponse 200 body)) (answering ∅ (mkResponse 302 body))
           "cats" (mkResponse 200 body) (mkResponse 302 body) eq_refl eq_refl).
  - unfold is_error_status; cbn; lia.
  - unfold is_error_status; cbn; lia.
  - reflexivity.
Defined.

(** X6: the body is decoded exactly when a response arrived whose status
    is not in 400-599. *)
Theorem search_decodes_iff (w : World) (query : string) :
  EvJson ∈ events_of w (models.search query w) ↔
  ∃ resp,
    remote w (search_request (environ w !! "PEXELS_API_KEY") query) = Some resp ∧
    ¬ is_error_status (status_code resp).
Proof.
  rewrite search_events_eq.
  destruct (remote w _) as [resp|] eqn:Hr.
  - case_bool_decide as Hs.
    + split; [absent_from_trace|]. by intros (resp' & [= <-] & Hs').
    + split; [by exists resp|]. intros _.
      do 2 apply list_elem_of_further. apply list_elem_of_here.
  - split; [absent_from_trace|]. by intros (resp' & [=] & _).
Qed.

Lemma search_decodes_iff_witness :
  EvJson ∈ events_of (answering ∅ (mkResponse 200 None))
             (models.search "cats" (answering ∅ (mkResponse 200 None))).
Proof.
  apply (proj2 (search_decodes_iff (answering ∅ (mkResponse 200 None)) "cats")).
  exists (mkResponse 200 None). split; [reflexivity|].
  unfold is_error_status; cbn; lia.
Defined.

(** ** The comprehension, closer up *)

Lemma first_missing_raises photo key :
  first_missing photo key → image_of_photo photo = Raise (KeyError key).
Proof.
  unfold image_of_photo.
  destruct 1 as [ms H|ms u Hu H|ms u src Hu Hs H|ms u src t Hu Hs Ht H]; cbn.
  - by rewrite H.
  - by rewrite Hu, H.
  - rewrite Hu, Hs. cbn. by rewrite H.
  - rewrite Hu, Hs. cbn. rewrite Ht, H. done.
Qed.

Lemma carries_builds photo img :
  carries photo img → image_of_photo photo = Return img.
Proof.
  intros (ms & src & -> & Hu & Hs & Ht & Hn & Hpk).
  unfold image_of_photo. cbn. rewrite Hu, Hs. cbn. rewrite Ht, Hn. cbn.
  destruct img as [pk u t n]. cbn in *. by rewrite Hpk.
Qed.

Lemma comprehension_carries photos images :
  Forall2 carries photos images →
  comprehension image_of_photo photos = Return images.
Proof.
  induction 1 as [|photo img photos images H _ IH]; [done|].
  cbn. rewrite (carries_builds photo img H). cbn. by rewrite IH.
Qed.

Lemma comprehension_app {A B} (f : A → result B) xs ys :
  comprehension f (xs ++ ys) =
  result_bind (comprehension f xs) (fun bs =>
  result_bind (comprehension f ys) (fun cs => Return (bs ++ cs))).
Proof.
  induction xs as [|x xs IH]; cbn.
  - by destruct (comprehension f ys).
  - destruct (f x) as [b|]; cbn; [|done]. rewrite IH.
    destruct (comprehension f xs) as [bs|]; cbn; [|done].
    by destruct (comprehension f ys).
Qed.

(** X7: the exception names the first thing that is missing.  When the
    photos before some photo object are well formed and that object
    lacks a member, [search] raises the [KeyError] of the first member
    the code fails to read in it ([url], then [src], then [tiny], then
    [photographer]); what comes after that photo in the list is never
    looked at. *)
Theorem search_first_bad_photo (w : World) (query : string) (resp : Response)
    (ms : list (string * json)) (good : list json) (bad : json)
    (rest : list json) (key : string) :
  remote w (search_request (environ w !! "PEXELS_API_KEY") query) = Some resp →
  ¬ is_error_status (status_code resp) →
  content resp = Some (JObject ms) →
  dict_get "photos" ms = Some (JArray (good ++ bad :: rest)) →
  Forall well_formed_photo good →
  first_missing bad key →
  outcome (models.search query w) = Raise (KeyError key).
Proof.
  intros Hr Hs Hc Hp Hgood Hbad.
  rewrite (search_json query w resp (JObject ms) Hr Hs Hc). cbn.
  unfold images_of_data. cbn. rewrite Hp. cbn.
  rewrite comprehension_app.
  destruct (comprehension_fields good Hgood) as (fs & _ & ->). cbn.
  by rewrite (first_missing_raises bad key Hbad).
Qed.

Lemma search_first_bad_photo_witness :
  outcome (models.search "cats"
             (answering ∅ (mkResponse 200 (Some (sample_body
                [sample_photo "u1" "t1" "Ann"; sample_photo_no_tiny "u2" "Bob";
                 JNull]))))) = Raise (KeyError "tiny").
Proof.
  apply (search_first_bad_photo
           (answering ∅ (mkResponse 200 (Some (sample_body
              [sample_photo "u1" "t1" "Ann"; sample_photo_no_tiny "u2" "Bob"; JNull]))))
           "cats" _ _ [sample_photo "u1" "t1" "Ann"] (sample_photo_no_tiny "u2" "Bob")
           [JNull] "tiny" eq_refl ltac:(unfold is_error_status; cbn; lia) eq_refl eq_refl).
  - repeat constructor. by eexists.
  - eapply first_missing_tiny; reflexivity.
Defined.

(** X8: nothing checks what the members hold.  Whenever every photo of
    the list has the three members, [search] returns the records that
    carry their values as they are: a number, a [null] or a string longer
    than the model's [max_length] is stored like any other value. *)
Theorem search_stores_values_unchecked (w : World) (query : string) (resp : Response)
    (ms : list (string * json)) (photos : list json) (images : list PexelsImage.t) :
  remote w (search_request (environ w !! "PEXELS_API_KEY") query) = Some resp →
  ¬ is_error_status (status_code resp) →
  content resp = Some (JObject ms) →
  dict_get "photos" ms = Some (JArray photos) →
  Forall2 carries photos images →
  outcome (models.search query w) = Return images.
Proof.
  intros Hr Hs Hc Hp Hcar.
  rewrite (search_json query w resp (JObject ms) Hr Hs Hc). cbn.
  unfold images_of_data. cbn. rewrite Hp. cbn.
  by rewrite (comprehension_carries photos images Hcar).
Qed.

Lemma search_stores_values_unchecked_witness :
  outcome (models.search "cats"
             (answering ∅ (mkResponse 200 (Some (JObject [("photos", JArray
                [JObject [("url", JNull); ("src", JObject [("tiny", JNumber "7")]);
                          ("photographer", JArray [])]])])))))
  = Return [PexelsImage.new JNull (JNumber "7") (JArray [])].
Proof.
  apply (search_stores_values_unchecked
           (answering ∅ (mkResponse 200 (Some (JObject [("photos", JArray
              [JObject [("url", JNull); ("src", JObject [("tiny", JNumber "7")]);
                        ("photographer", JArray [])]])]))))
           "cats" _ _ _ _ eq_refl ltac:(unfold is_error_status; cbn; lia) eq_refl eq_refl).
  constructor; [|constructor].
  eexists _, _. repeat split; reflexivity.
Defined.

(** X9: a [photos] that is not a list is iterated all the same.  An empty
    dict or an empty str gives the empty list of images, as an empty list
    would; every other value that is not a list ends in a [TypeError]
    (a number, a boolean or [null] cannot be iterated; the keys of a dict
    and the characters of a str cannot be subscripted by [url]). *)
Theorem search_photos_not_a_list (w : World) (query : string) (resp : Response)
    (ms : list (string * json)) (photos : json) :
  remote w (search_request (environ w !! "PEXELS_API_KEY") query) = Some resp →
  ¬ is_error_status (status_code resp) →
  content resp = Some (JObject ms) →
  dict_get "photos" ms = Some photos →
  (∀ items, photos ≠ JArray items) →
  outcome (models.search query w) =
    if iterates_to_nothing photos then Return [] else Raise TypeError.
Proof.
  intros Hr Hs Hc Hp Hnl.
  rewrite (search_json query w resp (JObject ms) Hr Hs Hc). cbn.
  unfold images_of_data. cbn. rewrite Hp. cbn.
  destruct photos as [| | |s|items|members]; try done.
  - by destruct s.
  - by destruct (Hnl items).
  - by destruct members as [|[k v] members].
Qed.

Lemma search_photos_not_a_list_witness :
  outcome (models.search "cats"
             (answering ∅ (mkResponse 200 (Some (JObject [("photos", JObject [])])))))
  = Return [] ∧
  outcome (models.search "cats"
             (answering ∅ (mkResponse 200 (Some (JObject [("photos", JString "none")])))))
  = Raise TypeError.
Proof.
  split.
  - apply (search_photos_not_a_list
             (answering ∅ (mkResponse 200 (Some (JObject [("photos", JObject [])]))))
             "cats" _ _ (JObject []) eq_refl
             ltac:(unfold is_error_status; cbn; lia) eq_refl eq_refl).
    intros items; discriminate.
  - apply (search_photos_not_a_list
             (answering ∅ (mkResponse 200 (Some (JObject [("photos", JString "none")]))))
             "cats" _ _ (JString "none") eq_refl
             ltac:(unfold is_error_status; cbn; lia) eq_refl eq_refl).
    intros items; discriminate.
Defined.

(** ** What reaches the server *)

Section url_cuts.
Import urls.
Variable c : ascii.

Lemma append_cons x a s : String x a +:+ s = String x (a +:+ s).
Proof. done. Qed.

Lemma append_nil s : "" +:+ s = s.
Proof. done. Qed.

Lemma before_app a s :
  occurs c a = false → before c (a +:+ s) = a +:+ before c s.
Proof.
  induction a as [|x a IH]; [done|].
  rewrite !append_cons. cbn.
  destruct (Ascii.eqb x c); [done|]. intros H. by rewrite IH.
Qed.

Lemma before_app_at a s :
  occurs c a = false → before c (a +:+ String c s) = a.
Proof.
  induction a as [|x a IH].
  - rewrite append_nil. cbn. by rewrite Ascii.eqb_refl.
  - rewrite append_cons. cbn.
    destruct (Ascii.eqb x c); [done|]. intros H. by rewrite IH.
Qed.

Lemma split_app_at a s :
  occurs c a = false → split c (a +:+ String c s) = a :: split c s.
Proof.
  induction a as [|x a IH].
  - rewrite append_nil. cbn. by rewrite Ascii.eqb_refl.
  - rewrite append_cons. cbn.
    destruct (Ascii.eqb x c); [done|]. intros H. by rewrite IH.
Qed.
End url_cuts.

(** The URL the code builds for a query with a [&] in it. *)
Lemma search_query_cut_at_ampersand (key : option string) (a rest : string) :
  urls.occurs "&" a = false → urls.occurs "#" a = false →
  urls.parameters (req_url (search_request key (a +:+ "&" +:+ rest))) =
    ("query", a) :: (urls.pair_of <$> urls.split "&" (urls.before "#" rest)).
Proof.
  intros Hamp Hhash. unfold urls.parameters, urls.query_component, endpoint. simpl.
  rewrite append_nil, (append_cons "&" "" rest), append_nil.
  rewrite (before_app "#" a _ Hhash). simpl.
  rewrite (split_app_at "&" a _ Hamp). simpl.
  unfold urls.pair_of at 1. simpl. done.
Qed.

(** The URL the code builds for a query with a [#] in it. *)
Lemma search_query_cut_at_hash (key : option string) (a rest : string) :
  urls.occurs "&" a = false → urls.occurs "#" a = false →
  urls.parameters (req_url (search_request key (a +:+ "#" +:+ rest))) = [("query", a)].
Proof.
  intros Hamp Hhash. unfold urls.parameters, urls.query_component, endpoint. simpl.
  rewrite append_nil, (append_cons "#" "" rest), append_nil.
  rewrite (before_app_at "#" a _ Hhash).
  rewrite (split_absent "&" a Hamp). done.
Qed.

Lemma after_app_at (c : ascii) (a s : string) :
  urls.occurs c a = false → urls.after c (a +:+ String c s) = Some s.
Proof.
  induction a as [|x a IH].
  - rewrite append_nil. cbn. by rewrite Ascii.eqb_refl.
  - rewrite append_cons. cbn. by destruct (Ascii.eqb x c).
Qed.

Lemma all_chars_occurs (p : ascii → bool) (c : ascii) (s : string) :
  urls.all_chars p s = true → p c = false → urls.occurs c s = false.
Proof.
  intros Hs Hc. induction s as [|x s IH]; [done|].
  cbn in *. apply andb_true_iff in Hs as [Hx Hs].
  destruct (Ascii.eqb_spec x c) as [->|_]; [congruence|by apply IH].
Qed.

Lemma all_chars_weaken (p q : ascii → bool) (s : string) :
  (∀ c, p c = true → q c = true) →
  urls.all_chars p s = true → urls.all_chars q s = true.
Proof.
  intros Hpq. induction s as [|x s IH]; [done|]. cbn.
  intros [Hx Hs]%andb_true_iff. by rewrite (Hpq x Hx), IH.
Qed.

(** The first request a call of the checked [search] sends. *)
Lemma checked_search_first_request (w : World) (query : string) :
  checked.acceptable (fstring (environ w !! "PEXELS_API_KEY")) = true →
  head (requests_sent (events_of w (checked.search query w))) =
  Some (search_request (environ w !! "PEXELS_API_KEY") query).
Proof.
  intros Hok. rewrite (checked_search_accepted w query Hok).
  by rewrite search_sends_one_request.
Qed.

(** X2: a query of unreserved characters (letters, digits, [-], [.],
    [_], [~]) arrives as it was typed.  When the credential is one
    [requests] sends, the request of [search] is a GET to the fixed
    endpoint whose only parameter is [query], with the query as its
    value. *)
Theorem search_plain_query_arrives (w : World) (query : string) :
  checked.acceptable (fstring (environ w !! "PEXELS_API_KEY")) = true →
  urls.all_chars urls.unreserved query = true →
  ∃ r,
    head (requests_sent (events_of w (checked.search query w))) = Some r ∧
    req_verb r = "GET" ∧
    urls.location (req_url r) = endpoint ∧
    urls.parameters (req_url r) = [("query", query)] ∧
    urls.fragment (req_url r) = None.
Proof.
  intros Hok Hq. eexists. split; [by apply checked_search_first_request|].
  assert (urls.occurs "&" query = false) as Hamp by (by eapply all_chars_occurs).
  assert (urls.occurs "#" query = false) as Hhash by (by eapply all_chars_occurs).
  destruct (search_request_plain_query (environ w !! "PEXELS_API_KEY") query Hamp Hhash)
    as [Hloc Hpar].
  split_and!; [done|done| |].
  - unfold urls.parameters, urls.query_component, endpoint. simpl.
    rewrite append_nil, (before_absent "#" query Hhash), (split_absent "&" query Hamp).
    done.
  - unfold urls.fragment, endpoint. simpl.
    rewrite append_nil. by apply after_absent.
Qed.

Lemma search_plain_query_arrives_witness :
  ∃ r,
    head (requests_sent
            (events_of (answering ∅ (mkResponse 200 None))
               (checked.search "cats" (answering ∅ (mkResponse 200 None))))) = Some r ∧
    urls.parameters (req_url r) = [("query", "cats")].
Proof.
  set (w := answering ∅ (mkResponse 200 None)).
  assert (checked.acceptable (fstring (environ w !! "PEXELS_API_KEY")) = true) as Hok
    by (vm_compute; reflexivity).
  destruct (search_plain_query_arrives w "cats" Hok eq_refl) as (r & H1 & _ & _ & H2 & _).
  exists r. split; assumption.
Defined.

(** X10: a query is cut at its first [&].  For a query [a&rest] with [a]
    of unreserved characters and [rest] of unreserved characters, [&]
    and [=], and a credential [requests] sends, the request of [search]
    has [query=a] as its first parameter and the pieces of [rest] as
    further parameters of the request: a search for [cats&per_page=80]
    sets the API's [per_page]. *)
Theorem search_query_injects_parameters (w : World) (a rest : string) :
  checked.acceptable (fstring (environ w !! "PEXELS_API_KEY")) = true →
  urls.all_chars urls.unreserved a = true →
  urls.all_chars urls.pair_char rest = true →
  ∃ r,
    head (requests_sent (events_of w (checked.search (a +:+ "&" +:+ rest) w))) = Some r ∧
    urls.location (req_url r) = endpoint ∧
    urls.parameters (req_url r) =
      ("query", a) :: (urls.pair_of <$> urls.split "&" rest) ∧
    urls.fragment (req_url r) = None.
Proof.
  intros Hok Ha Hrest. eexists. split; [by apply checked_search_first_request|].
  assert (urls.occurs "&" a = false) as Hamp by (by eapply all_chars_occurs).
  assert (urls.occurs "#" a = false) as Hhash by (by eapply all_chars_occurs).
  assert (urls.occurs "#" rest = false) as Hrhash by (by eapply all_chars_occurs).
  rewrite (search_query_cut_at_ampersand _ a rest Hamp Hhash).
  rewrite (before_absent "#" rest Hrhash).
  split_and!; [|done|].
  - unfold urls.location, endpoint. by simpl.
  - unfold urls.fragment, endpoint. simpl.
    rewrite append_nil, (append_cons "&" "" rest), append_nil.
    apply after_absent. clear Hok Hamp.
    induction a as [|x a IH].
    + rewrite append_nil. cbn. exact Hrhash.
    + rewrite append_cons. cbn in *. apply andb_true_iff in Ha as [Hx Ha].
      destruct (Ascii.eqb x "#"); [done|]. by apply IH.
Qed.

Lemma search_query_injects_parameters_witness :
  ∃ r,
    head (requests_sent
            (events_of (answering ∅ (mkResponse 200 None))
               (checked.search ("cats" +:+ "&" +:+ "per_page=80")
                  (answering ∅ (mkResponse 200 None))))) = Some r ∧
    urls.parameters (req_url r) = [("query", "cats"); ("per_page", "80")].
Proof.
  set (w := answering ∅ (mkResponse 200 None)).
  assert (checked.acceptable (fstring (environ w !! "PEXELS_API_KEY")) = true) as Hok
    by (vm_compute; reflexivity).
  destruct (search_query_injects_parameters w "cats" "per_page=80" Hok eq_refl eq_refl)
    as (r & H1 & _ & H2 & _).
  exists r. split; assumption.
Defined.

(** X11: a query is cut at its first [#].  For a query [a#rest] with [a]
    and [rest] of unreserved characters, and a credential [requests]
    sends, the request of [search] has the one parameter [query=a], and
    [rest] is the fragment of its URL, which is no part of what a server
    is sent. *)
Theorem search_query_loses_fragment (w : World) (a rest : string) :
  checked.acceptable (fstring (environ w !! "PEXELS_API_KEY")) = true →
  urls.all_chars urls.unreserved a = true →
  urls.all_chars urls.unreserved rest = true →
  ∃ r,
    head (requests_sent (events_of w (checked.search (a +:+ "#" +:+ rest) w))) = Some r ∧
    urls.location (req_url r) = endpoint ∧
    urls.parameters (req_url r) = [("query", a)] ∧
    urls.fragment (req_url r) = Some rest.
Proof.
  intros Hok Ha Hrest. eexists. split; [by apply checked_search_first_request|].
  assert (urls.occurs "&" a = false) as Hamp by (by eapply all_chars_occurs).
  assert (urls.occurs "#" a = false) as Hhash by (by eapply all_chars_occurs).
  rewrite (search_query_cut_at_hash _ a rest Hamp Hhash).
  split_and!; [|done|].
  - unfold urls.location, endpoint. by simpl.
  - unfold urls.fragment, endpoint. simpl.
    rewrite append_nil, (append_cons "#" "" rest), append_nil.
    by apply after_app_at.
Qed.

Lemma search_query_loses_fragment_witness :
  ∃ r,
    head (requests_sent
            (events_of (answering ∅ (mkResponse 200 None))
               (checked.search ("c" +:+ "#" +:+ "minor")
                  (answering ∅ (mkResponse 200 None))))) = Some r ∧
    urls.parameters (req_url r) = [("query", "c")] ∧
    urls.fragment (req_url r) = Some "minor".
Proof.
  set (w := answering ∅ (mkResponse 200 None)).
  assert (checked.acceptable (fstring (environ w !! "PEXELS_API_KEY")) = true) as Hok
    by (vm_compute; reflexivity).
  destruct (search_query_loses_fragment w "c" "minor" Hok eq_refl eq_refl)
    as (r & H1 & _ & H2 & H3).
  exists r. split; [assumption|]. split; assumption.
Defined.

(** ** The view and the model together *)

Lemma search_events_same_io (w1 w2 : World) (query : string) :
  environ w1 = environ w2 → remote w1 = remote w2 →
  events_of w1 (models.search query w1) = events_of w2 (models.search query w2).
Proof. intros He Hr. by rewrite !search_events_eq, He, Hr. Qed.

Lemma view_valid_post_events (request : views.HttpRequest) (w : World) (query : string) :
  views.method request = "POST" →
  views.POST request !! "query" = Some query → query ≠ "" →
  events_of w (views.search request w) = EvIsValid :: events_of w (models.search query w).
Proof.
  intros Hm Hq Hne.
  rewrite <- (search_events_same_io (log EvIsValid w) w query eq_refl eq_refl).
  rewrite (view_valid_post request w query Hm Hq Hne).
  destruct (search_trace query (log EvIsValid w)) as (es & Ht & _).
  destruct (models.search query (log EvIsValid w)) as [[images|e] w'] eqn:Hrun;
    cbn in Ht.
  - rewrite (events_of_grown (log EvIsValid w) w' (Return images) es Ht).
    apply events_of_grown. rewrite Ht. cbn. by rewrite <- app_assoc.
  - rewrite (events_of_grown (log EvIsValid w) w' (Raise e) es Ht).
    apply events_of_grown. rewrite Ht. cbn. by rewrite <- app_assoc.
Qed.

(** X12: a valid submission is a call of [PexelsImage.search] with the
    submitted query, and nothing more.  The view validates first; then
    what [search] returns is rendered with the bound form, and what
    [search] raises is raised by the view: no [try] stands between the
    two, and the list is handed to the template as it came. *)
Theorem view_valid_post_is_search (request : views.HttpRequest) (w : World)
    (query : string) :
  views.method request = "POST" →
  views.POST request !! "query" = Some query → query ≠ "" →
  outcome (views.search request w) =
    match outcome (models.search query w) with
    | Return images =>
        Return (views.mkPage "imagefinder/search.html"
                  (forms.Bound (views.POST request)) images)
    | Raise e => Raise e
    end ∧
  events_of w (views.search request w) =
    EvIsValid :: events_of w (models.search query w).
Proof.
  intros Hm Hq Hne. split; [|by apply view_valid_post_events].
  rewrite <- (search_outcome_same_io (log EvIsValid w) w query eq_refl eq_refl).
  rewrite (view_valid_post request w query Hm Hq Hne).
  by destruct (models.search query (log EvIsValid w)) as [[images|e] w'].
Qed.

Lemma view_valid_post_is_search_witness :
  outcome (views.search (views.mkHttpRequest "POST" {[ "query" := "cats" ]})
             (answering ∅ (mkResponse 200 (Some (sample_body
                [sample_photo "u1" "t1" "Ann"; sample_photo "u2" "t2" "Bob"]))))) =
  Return (views.mkPage "imagefinder/search.html" (forms.Bound {[ "query" := "cats" ]})
            [image_of_fields ("u1", "t1", "Ann"); image_of_fields ("u2", "t2", "Bob")]).
Proof.
  exact (proj1 (view_valid_post_is_search
                  (views.mkHttpRequest "POST" {[ "query" := "cats" ]})
                  (answering ∅ (mkResponse 200 (Some (sample_body
                     [sample_photo "u1" "t1" "Ann"; sample_photo "u2" "t2" "Bob"]))))
                  "cats" eq_refl eq_refl ltac:(discriminate))).
Defined.

(** X13: handling one request of the browser calls [requests.get] at
    most once.  The view makes the call of [search], with the request
    [search] builds, when the method is POST and the [query] field is
    there and not empty, and makes no call on every other path: there is
    no loop and no second attempt in either function.  (What [requests]
    then sends for that call, nothing for a header it refuses, more than
    one request when it follows a redirect, is its own affair.) *)
Theorem view_requests (request : views.HttpRequest) (w : World) :
  requests_sent (events_of w (views.search request w)) =
    if String.eqb (views.method request) "POST" then
      match views.POST request !! "query" with
      | Some query =>
          if String.eqb query "" then []
          else [search_request (environ w !! "PEXELS_API_KEY") query]
      | None => []
      end
    else [].
Proof.
  destruct (String.eqb_spec (views.method request) "POST") as [Hm|Hm].
  - destruct (views.POST request !! "query") as [query|] eqn:Hq.
    + destruct (String.eqb_spec query "") as [->|Hne].
      * rewrite (view_invalid_post request w Hm); [|cbn; by rewrite Hq].
        by rewrite (events_of_grown w (log EvIsValid w) _ [EvIsValid] eq_refl).
      * rewrite (view_valid_post_events request w query Hm Hq Hne).
        cbn. apply search_sends_one_request.
    + rewrite (view_invalid_post request w Hm); [|cbn; by rewrite Hq].
      by rewrite (events_of_grown w (log EvIsValid w) _ [EvIsValid] eq_refl).
  - rewrite (view_not_post request w Hm).
    by rewrite (events_of_grown w w _ [] (eq_sym (app_nil_r _))).
Qed.
